(** * librealsense: src/types.h and examples/cpp-capture.cpp

    A shallow embedding of the "world's tiniest linear algebra library" and
    the enumerated-type helpers of [src/types.h], with the mode-selection
    contract of [static_camera_info::select_mode].

    Scalars.  The C++ code computes on [float].  Every operation of the
    linear algebra is built from [+], [*] and the conversion of an [int]
    literal, so the embedding is written once over a [Scalar] interface
    that carries exactly these three operations and no laws.  Two
    instances are given: IEEE-754 binary32 (through [SpecFloat], precision
    24, maximal exponent 128: the [float] of the source, each operation
    rounded on its own), and exact integers.

    Of examples/cpp-capture.cpp, [find_file] is embedded over the file
    system as [fopen] sees it; [compute_fov] is built on [atan2f] and
    [M_PI] of the C library and is not embedded. *)

From Stdlib Require Import ZArith List Bool Lia String Ascii.
From Stdlib Require Import Floats.SpecFloat.
From Stdlib Require Import DecimalString DecimalPos DecimalZ.
Import ListNotations.

Local Open Scope Z_scope.

(* ================================================================== *)
(** * Scalars *)

Class Scalar (F : Type) : Type := {
  fadd : F -> F -> F;      (* a + b *)
  fmul : F -> F -> F;      (* a * b *)
  of_int : Z -> F          (* the implicit conversion int -> float *)
}.

(** IEEE-754 binary32, the [float] of the source. *)
Definition binary32 : Type := spec_float.

Definition b32_prec : Z := 24.
Definition b32_emax : Z := 128.

#[export] Instance Scalar_binary32 : Scalar binary32 := {|
  fadd := SFadd b32_prec b32_emax;
  fmul := SFmul b32_prec b32_emax;
  of_int := fun n => binary_normalize b32_prec b32_emax n 0 false
|}.

(** Exact integer arithmetic: rounding-free, for algebraic reasoning. *)
#[export] Instance Scalar_Z : Scalar Z := {|
  fadd := Z.add;
  fmul := Z.mul;
  of_int := fun n => n
|}.

(* ================================================================== *)
(** * World's tiniest linear algebra library (types.h, lines 30-40) *)

Section LinearAlgebra.
Context {F : Type} `{Scalar F}.

(** [struct float3 { float x,y,z; ... }] *)
Record float3 : Type := mk_float3 { x : F; y : F; z : F }.

(** [float & operator [] (int i) { return (&x)[i]; }]
    The three members are laid out in order; an index outside 0..2 is
    outside the object and has no defined value. *)
Definition float3_index (v : float3) (i : Z) : option F :=
  if i =? 0 then Some (x v)
  else if i =? 1 then Some (y v)
  else if i =? 2 then Some (z v)
  else None.

(** [struct float3x3 { float3 x,y,z; ... }; // column-major]
    The members are the three stored columns; they are named [col_x],
    [col_y], [col_z] here since [x], [y], [z] are taken by [float3]. *)
Record float3x3 : Type := mk_float3x3 {
  col_x : float3; col_y : float3; col_z : float3 }.

(** [(&x)[j]] on a [float3x3]: the j-th stored member. *)
Definition float3x3_member (m : float3x3) (j : Z) : option float3 :=
  if j =? 0 then Some (col_x m)
  else if j =? 1 then Some (col_y m)
  else if j =? 2 then Some (col_z m)
  else None.

(** [float & operator () (int i, int j) { return (&x)[j][i]; }] *)
Definition float3x3_at (m : float3x3) (i j : Z) : option F :=
  match float3x3_member m j with
  | Some c => float3_index c i
  | None => None
  end.

(** [struct pose { float3x3 orientation; float3 position; }] *)
Record pose : Type := mk_pose {
  orientation : float3x3; position : float3 }.

(** [operator + (const float3 & a, const float3 & b)] *)
Definition float3_add (a b : float3) : float3 :=
  mk_float3 (fadd (x a) (x b)) (fadd (y a) (y b)) (fadd (z a) (z b)).

(** [operator * (const float3 & a, float b)] *)
Definition float3_scale (a : float3) (b : F) : float3 :=
  mk_float3 (fmul (x a) b) (fmul (y a) b) (fmul (z a) b).

(** [operator * (const float3x3 & a, const float3 & b)]
    [return a.x*b.x + a.y*b.y + a.z*b.z;] ([+] associates to the left) *)
Definition float3x3_mul_float3 (a : float3x3) (b : float3) : float3 :=
  float3_add
    (float3_add (float3_scale (col_x a) (x b)) (float3_scale (col_y a) (y b)))
    (float3_scale (col_z a) (z b)).

(** [operator * (const float3x3 & a, const float3x3 & b)]
    [return {a*b.x, a*b.y, a*b.z};] *)
Definition float3x3_mul (a b : float3x3) : float3x3 :=
  mk_float3x3 (float3x3_mul_float3 a (col_x b))
              (float3x3_mul_float3 a (col_y b))
              (float3x3_mul_float3 a (col_z b)).

(** [transpose(const float3x3 & a)]
    [return {{a.x.x,a.y.x,a.z.x}, {a.x.y,a.y.y,a.z.y}, {a.x.z,a.y.z,a.z.z}};] *)
Definition transpose (a : float3x3) : float3x3 :=
  mk_float3x3
    (mk_float3 (x (col_x a)) (x (col_y a)) (x (col_z a)))
    (mk_float3 (y (col_x a)) (y (col_y a)) (y (col_z a)))
    (mk_float3 (z (col_x a)) (z (col_y a)) (z (col_z a))).

(** [operator * (const pose & a, const float3 & b)]
    [return a.orientation * b + a.position;] *)
Definition pose_mul_float3 (a : pose) (b : float3) : float3 :=
  float3_add (float3x3_mul_float3 (orientation a) b) (position a).

(** [operator * (const pose & a, const pose & b)]
    [return {a.orientation * b.orientation, a.position + a * b.position};]
    In [a * b.position] the left operand [a] is the pose, so overload
    resolution picks [operator * (const pose &, const float3 &)]. *)
Definition pose_mul (a b : pose) : pose :=
  mk_pose (float3x3_mul (orientation a) (orientation b))
          (float3_add (position a) (pose_mul_float3 a (position b))).

(** [inverse(const pose & a)]
    [auto inv = transpose(a.orientation); return {inv, inv * a.position * -1};]
    ([*] associates to the left: the product matrix-by-vector is scaled
    by the literal [-1], converted to [float].) *)
Definition inverse (a : pose) : pose :=
  let inv := transpose (orientation a) in
  mk_pose inv
          (float3_scale (float3x3_mul_float3 inv (position a)) (of_int (-1))).

(** What the specification calls the identity pose. *)
Definition float3_zero : float3 :=
  mk_float3 (of_int 0) (of_int 0) (of_int 0).

Definition float3x3_identity : float3x3 :=
  mk_float3x3 (mk_float3 (of_int 1) (of_int 0) (of_int 0))
              (mk_float3 (of_int 0) (of_int 1) (of_int 0))
              (mk_float3 (of_int 0) (of_int 0) (of_int 1)).

Definition pose_identity : pose := mk_pose float3x3_identity float3_zero.

End LinearAlgebra.

Arguments float3 F : clear implicits.
Arguments float3x3 F : clear implicits.
Arguments pose F : clear implicits.

(* ================================================================== *)
(** * Enumerated type support (types.h, lines 16-25) *)

(** The enumerations [rs_stream], [rs_format], [rs_preset],
    [rs_distortion] and [rs_option] come from include/librealsense/rs.h;
    a value of such a type is the [int] it converts to. *)
Definition rs_stream : Type := Z.
Definition rs_format : Type := Z.
Definition rs_preset : Type := Z.
Definition rs_distortion : Type := Z.
Definition rs_option : Type := Z.

(** [out << (int)value]: the decimal rendering of an [int]. *)
Definition put_int (n : Z) : string := NilZero.string_of_int (Z.to_int n).

(** Reading a decimal numeral back, to say what [put_int] wrote. *)
Definition read_int (s : string) : option Z :=
  option_map Z.of_int (NilZero.int_of_string s).

(** The effect of one insertion on a [std::ostream]: the characters now
    in the stream, and the values [get_string] was called on while
    producing them. *)
Record ostream_effect : Type := mk_effect {
  written : string;
  lookups : list Z
}.

(** [RS_ENUM_HELPERS(TYPE, PREFIX)].  The macro pastes [RS_##PREFIX##_COUNT],
    a sentinel of rs.h, and declares [get_string(TYPE)], which is defined
    in another translation unit: both are parameters of the expansion. *)
Section RS_ENUM_HELPERS.
Variable COUNT : Z.
Variable get_string : Z -> string.

(** [inline bool is_valid(TYPE value)
      { return value >= 0 && value < RS_##PREFIX##_COUNT; }] *)
Definition is_valid (value : Z) : bool :=
  (value >=? 0) && (value <? COUNT).

(** [inline std::ostream & operator << (std::ostream & out, TYPE value)
      { if(is_valid(value)) return out << get_string(value);
        else return out << (int)value; }] *)
Definition put_enum (out : string) (value : Z) : ostream_effect :=
  if is_valid value
  then mk_effect (out ++ get_string value) [value]
  else mk_effect (out ++ put_int value) [].

End RS_ENUM_HELPERS.

(** The constants and name tables of rs.h that the five expansions
    [RS_ENUM_HELPERS(rs_stream, STREAM)] ... [RS_ENUM_HELPERS(rs_option, OPTION)]
    refer to. *)
Record rs_h : Type := mk_rs_h {
  RS_STREAM_COUNT : Z;
  RS_FORMAT_COUNT : Z;
  RS_PRESET_COUNT : Z;
  RS_DISTORTION_COUNT : Z;
  RS_OPTION_COUNT : Z;
  get_string_stream : rs_stream -> string;
  get_string_format : rs_format -> string;
  get_string_preset : rs_preset -> string;
  get_string_distortion : rs_distortion -> string;
  get_string_option : rs_option -> string
}.

Section EnumInstances.
Variable h : rs_h.

Definition is_valid_stream : rs_stream -> bool := is_valid (RS_STREAM_COUNT h).
Definition is_valid_format : rs_format -> bool := is_valid (RS_FORMAT_COUNT h).
Definition is_valid_preset : rs_preset -> bool := is_valid (RS_PRESET_COUNT h).
Definition is_valid_distortion : rs_distortion -> bool :=
  is_valid (RS_DISTORTION_COUNT h).
Definition is_valid_option : rs_option -> bool := is_valid (RS_OPTION_COUNT h).

Definition put_stream : string -> rs_stream -> ostream_effect :=
  put_enum (RS_STREAM_COUNT h) (get_string_stream h).
Definition put_format : string -> rs_format -> ostream_effect :=
  put_enum (RS_FORMAT_COUNT h) (get_string_format h).
Definition put_preset : string -> rs_preset -> ostream_effect :=
  put_enum (RS_PRESET_COUNT h) (get_string_preset h).
Definition put_distortion : string -> rs_distortion -> ostream_effect :=
  put_enum (RS_DISTORTION_COUNT h) (get_string_distortion h).
Definition put_option : string -> rs_option -> ostream_effect :=
  put_enum (RS_OPTION_COUNT h) (get_string_option h).

End EnumInstances.

(** What an insertion does, for one enumerated type with validity test
    [valid], name table [names] and operator [put]. *)
Definition insertion_total (valid : Z -> bool) (names : Z -> string)
           (put : string -> Z -> ostream_effect) : Prop :=
  forall (out : string) (v : Z),
    written (put out v) = (out ++ (if valid v then names v else put_int v))%string
    /\ lookups (put out v) = (if valid v then [v] else [])
    /\ Forall (fun k => valid k = true) (lookups (put out v))
    /\ read_int (put_int v) = Some v.

(** A sample header, used to run the helpers: four streams (the ones
    cpp-capture.cpp draws) and small tables for the other types. *)
Definition sample_names (names : list string) (v : Z) : string :=
  nth (Z.to_nat v) names EmptyString.

Definition sample_rs_h : rs_h := {|
  RS_STREAM_COUNT := 4;
  RS_FORMAT_COUNT := 9;
  RS_PRESET_COUNT := 3;
  RS_DISTORTION_COUNT := 3;
  RS_OPTION_COUNT := 2;
  get_string_stream :=
    sample_names ["DEPTH"; "COLOR"; "INFRARED"; "INFRARED_2"]%string;
  get_string_format :=
    sample_names ["ANY"; "Z16"; "YUYV"; "RGB8"; "BGR8"; "RGBA8"; "BGRA8";
                  "Y8"; "Y16"]%string;
  get_string_preset :=
    sample_names ["BEST_QUALITY"; "LARGEST_IMAGE"; "HIGHEST_FRAMERATE"]%string;
  get_string_distortion :=
    sample_names ["NONE"; "MODIFIED_BROWN_CONRADY";
                  "INVERSE_BROWN_CONRADY"]%string;
  get_string_option :=
    sample_names ["F200_LASER_POWER"; "R200_LR_AUTO_EXPOSURE_ENABLED"]%string
|}.

(* ================================================================== *)
(** * UVC types and static camera info (types.h, lines 42-113) *)

Module uvc.
(** [enum class frame_format] *)
Inductive frame_format : Type :=
| ANY | YUYV | Y12I | Y8 | Z16 | INVI | INVR | INRI.

Definition frame_format_value (f : frame_format) : Z :=
  match f with
  | ANY => 0 | YUYV => 3 | Y12I => 5 | Y8 => 7
  | Z16 => 8 | INVI => 14 | INVR => 16 | INRI => 18
  end.
End uvc.

(** [struct stream_request] *)
Record stream_request : Type := mk_stream_request {
  enabled : bool;
  width : Z;
  height : Z;
  format : rs_format;
  fps : Z
}.

(** [struct stream_mode]; the members [width], [height], [format], [fps]
    carry the prefix [sm_]. *)
Record stream_mode : Type := mk_stream_mode {
  stream : rs_stream;
  sm_width : Z;
  sm_height : Z;
  sm_format : rs_format;
  sm_fps : Z;
  intrinsics_index : Z
}.

(** The unpacking routines declared in types.h, lines 86-92: the values a
    [subdevice_mode::unpacker] pointer takes. *)
Inductive unpacker_fn : Type :=
| unpack_strided_image
| unpack_y12i_to_y8
| unpack_y12i_to_y16
| unpack_yuyv_to_rgb
| unpack_yuyv_to_rgba
| unpack_yuyv_to_bgr
| unpack_yuyv_to_bgra.

(** [struct subdevice_mode]; the members [width], [height], [format],
    [fps] carry the prefix [sd_].  No frame-number decoder is declared in
    the header: the pointer is kept as an opaque handle. *)
Record subdevice_mode : Type := mk_subdevice_mode {
  subdevice : Z;
  sd_width : Z;
  sd_height : Z;
  sd_format : uvc.frame_format;
  sd_fps : Z;
  streams : list stream_mode;
  unpacker : unpacker_fn;
  frame_number_decoder : Z
}.

(** [int stream_request::* field]: a pointer to one of the [int] members
    of [stream_request]. *)
Inductive request_field : Type := field_width | field_height | field_fps.

Definition request_field_get (f : request_field) (r : stream_request) : Z :=
  match f with
  | field_width => width r
  | field_height => height r
  | field_fps => fps r
  end.

Definition mode_field_get (f : request_field) (m : stream_mode) : Z :=
  match f with
  | field_width => sm_width m
  | field_height => sm_height m
  | field_fps => sm_fps m
  end.

(** [struct interstream_rule // Requires a.*field + delta == b.*field] *)
Record interstream_rule : Type := mk_interstream_rule {
  rule_a : rs_stream;
  rule_b : rs_stream;
  field : request_field;
  delta : Z
}.

(** [struct static_camera_info]; the C arrays indexed by an enumeration
    are lists of the corresponding length. *)
Record static_camera_info : Type := mk_static_camera_info {
  name : string;
  stream_subdevices : list Z;
  subdevice_modes : list subdevice_mode;
  interstream_rules : list interstream_rule;
  presets : list (list stream_request);
  option_supported : list bool
}.

(** Reading a C array at an [int] index. *)
Definition array_get {A : Type} (a : list A) (i : Z) : option A :=
  if i <? 0 then None else nth_error a (Z.to_nat i).

(* ================================================================== *)
(** * Mode selection (specification, section 4.1) *)

Section ModeSelection.
(** [RS_FORMAT_ANY] of rs.h: the "any" pixel format. *)
Variable RS_FORMAT_ANY : rs_format.

(** The cost of the unpack path a wire format leads to; the
    specification orders candidate modes by it and does not fix it. *)
Variable unpack_overhead : uvc.frame_format -> nat.

(** Modelled from the spec: a request field against a mode field, where
    zero is "don't care" (the comparison inside the missing body of
    [select_mode]). *)
Definition int_field_matches (requested advertised : Z) : bool :=
  (requested =? 0) || (requested =? advertised).

Definition format_matches (requested advertised : rs_format) : bool :=
  (requested =? RS_FORMAT_ANY) || (requested =? advertised).

Definition request_matches (req : stream_request) (sm : stream_mode) : bool :=
  int_field_matches (width req) (sm_width sm)
  && int_field_matches (height req) (sm_height sm)
  && format_matches (format req) (sm_format sm)
  && int_field_matches (fps req) (sm_fps sm).

(** Modelled from the spec: the request of a stream, when that stream is
    marked enabled (part of the missing body of [select_mode]). *)
Definition enabled_request (requests : list stream_request) (s : rs_stream)
  : option stream_request :=
  match array_get requests s with
  | Some req => if enabled req then Some req else None
  | None => None
  end.

(** Modelled from the spec: every embedded StreamMode whose stream is
    enabled agrees with the request of that stream (part of the missing
    body of [select_mode]). *)
Definition satisfies_requests (requests : list stream_request)
           (m : subdevice_mode) : bool :=
  forallb (fun sm => match enabled_request requests (stream sm) with
                     | Some req => request_matches req sm
                     | None => true
                     end)
          (streams m).

Definition find_stream_mode (m : subdevice_mode) (s : rs_stream)
  : option stream_mode :=
  find (fun sm => stream sm =? s) (streams m).

(** Modelled from the spec: no enabled request maps to the mode's
    sub-device while the mode has no StreamMode for its stream (part of
    the missing body of [select_mode]).  [j] is the stream of the first
    request of [reqs]. *)
Fixpoint covers_from (info : static_camera_info) (m : subdevice_mode)
         (j : Z) (reqs : list stream_request) : bool :=
  match reqs with
  | [] => true
  | req :: rest =>
      (if enabled req
       then match array_get (stream_subdevices info) j with
            | Some sd =>
                if sd =? subdevice m
                then match find_stream_mode m j with
                     | Some _ => true
                     | None => false
                     end
                else true
            | None => true
            end
       else true)
      && covers_from info m (j + 1) rest
  end.

Definition covers_requests (info : static_camera_info)
           (requests : list stream_request) (m : subdevice_mode) : bool :=
  covers_from info m 0 requests.

(** Modelled from the spec: the value a rule sees for one stream (part
    of the missing body of [select_mode]): the requested value when it
    is explicit, otherwise the value the candidate mode advertises for
    that stream, when it carries the stream. *)
Definition rule_value (f : request_field) (req : stream_request)
           (m : subdevice_mode) (s : rs_stream) : option Z :=
  if request_field_get f req =? 0
  then match find_stream_mode m s with
       | Some sm => Some (mode_field_get f sm)
       | None => None
       end
  else Some (request_field_get f req).

(** Modelled from the spec: one rule, applied when both of its streams
    are enabled (part of the missing body of [select_mode]). *)
Definition rule_holds (requests : list stream_request) (m : subdevice_mode)
           (r : interstream_rule) : bool :=
  match enabled_request requests (rule_a r),
        enabled_request requests (rule_b r) with
  | Some ra, Some rb =>
      match rule_value (field r) ra m (rule_a r),
            rule_value (field r) rb m (rule_b r) with
      | Some va, Some vb => va + delta r =? vb
      | _, _ => true
      end
  | _, _ => true
  end.

(** Modelled from the spec: the filter of the missing body of
    [select_mode]: the four conditions a mode passes to be eligible. *)
Definition candidate (info : static_camera_info)
           (requests : list stream_request) (subdevice_index : Z)
           (m : subdevice_mode) : bool :=
  (subdevice m =? subdevice_index)
  && satisfies_requests requests m
  && covers_requests info requests m
  && forallb (rule_holds requests m) (interstream_rules info).

(** Modelled from the spec: the tie-break of the missing body of
    [select_mode]: the lowest unpack overhead, the first declared among
    equals. *)
Fixpoint pick_mode (best : option subdevice_mode) (l : list subdevice_mode)
  : option subdevice_mode :=
  match l with
  | [] => best
  | m :: rest =>
      match best with
      | None => pick_mode (Some m) rest
      | Some b =>
          if (unpack_overhead (sd_format m) <? unpack_overhead (sd_format b))%nat
          then pick_mode (Some m) rest
          else pick_mode (Some b) rest
      end
  end.

(** Modelled from the spec: the body of
    [static_camera_info::select_mode], of which types.h holds the
    declaration only.  [None] is the "no compatible mode" outcome. *)
Definition select_mode (info : static_camera_info)
           (requests : list stream_request) (subdevice_index : Z)
  : option subdevice_mode :=
  pick_mode None
            (filter (candidate info requests subdevice_index)
                    (subdevice_modes info)).

End ModeSelection.

(* ================================================================== *)
(** * Sample data *)

(** A pose with the identity orientation, one unit along x. *)
Definition unit_x_pose {F : Type} `{Scalar F} : pose F :=
  mk_pose float3x3_identity (mk_float3 (of_int 1) (of_int 0) (of_int 0)).

(** A quarter turn about z, moved one unit along x. *)
Definition quarter_turn_pose {F : Type} `{Scalar F} : pose F :=
  mk_pose (mk_float3x3 (mk_float3 (of_int 0) (of_int 1) (of_int 0))
                       (mk_float3 (of_int (-1)) (of_int 0) (of_int 0))
                       (mk_float3 (of_int 0) (of_int 0) (of_int 1)))
          (mk_float3 (of_int 1) (of_int 0) (of_int 0)).

Definition sample_matrix : float3x3 Z :=
  mk_float3x3 (mk_float3 1 2 3) (mk_float3 4 5 6) (mk_float3 7 8 9).

(** A camera in the style of the scenario of the specification: depth on
    sub-device 0, colour on sub-device 1, the two infrared streams on
    sub-device 2, which must agree on width. *)
Definition sample_depth_mode : subdevice_mode :=
  mk_subdevice_mode 0 640 480 uvc.Z16 30
    [mk_stream_mode 0 640 480 1 30 0] unpack_strided_image 0.

Definition sample_color_mode : subdevice_mode :=
  mk_subdevice_mode 1 640 480 uvc.YUYV 30
    [mk_stream_mode 1 640 480 3 30 1] unpack_yuyv_to_rgb 0.

Definition sample_infrared_mode : subdevice_mode :=
  mk_subdevice_mode 2 640 480 uvc.Y12I 30
    [mk_stream_mode 2 640 480 7 30 2; mk_stream_mode 3 640 480 7 30 2]
    unpack_y12i_to_y8 0.

Definition sample_rule : interstream_rule :=
  mk_interstream_rule 2 3 field_width 0.

Definition sample_camera : static_camera_info :=
  mk_static_camera_info "sample" [0; 1; 2; 2]
    [sample_depth_mode; sample_color_mode; sample_infrared_mode]
    [sample_rule] [] [].

Definition sample_overhead (f : uvc.frame_format) : nat :=
  match f with
  | uvc.Z16 | uvc.Y8 | uvc.INVI | uvc.INVR => 0%nat
  | uvc.Y12I | uvc.INRI => 1%nat
  | uvc.YUYV | uvc.ANY => 2%nat
  end.

Definition request_off : stream_request := mk_stream_request false 0 0 0 0.

(** DEPTH 640x480 "any" 30 requested, the other streams disabled. *)
Definition sample_requests : list stream_request :=
  [mk_stream_request true 640 480 0 30; request_off; request_off; request_off].

(** DEPTH requested with every field left open. *)
Definition dont_care_requests : list stream_request :=
  [mk_stream_request true 0 0 0 0; request_off; request_off; request_off].

(** The two infrared streams requested with widths 640 and 320. *)
Definition conflicting_requests : list stream_request :=
  [request_off; request_off;
   mk_stream_request true 640 0 0 0; mk_stream_request true 320 0 0 0].

(* ================================================================== *)
(** * find_file (cpp-capture.cpp, lines 13-21) *)

Section FindFile.
(** The file system as [fopen(path, "rb")] sees it during one call: the
    handle it returns, or [None] for a null pointer. *)
Variable FILE : Type.
Variable fopen : string -> option FILE.

(** The body of the [for] loop, run [n] more times:
    [if(auto f = fopen(path.c_str(), "rb")) return f; path = "../" + path;]
    and [return nullptr] when the loop ends. *)
Fixpoint find_file_loop (n : nat) (path : string) : option FILE :=
  match n with
  | O => None
  | S n' =>
      match fopen path with
      | Some f => Some f
      | None => find_file_loop n' ("../" ++ path)
      end
  end.

(** [FILE * find_file(std::string path, int levels)]:
    [for(int i=0; i<=levels; ++i)] runs [levels + 1] times, and not at all
    when [levels] is negative. *)
Definition find_file (path : string) (levels : Z) : option FILE :=
  find_file_loop (Z.to_nat (levels + 1)) path.

(** The largest [int]. *)
Definition INT_MAX : Z := 2147483647.

(** How a call of [find_file] ends. *)
Inductive find_outcome : Type :=
| opened (f : FILE)     (* [return f] *)
| null_pointer          (* [return nullptr] *)
| int_overflow.         (* [++i] at [i == INT_MAX]: no defined behaviour *)

(** The loop with its [int] counter, from the test [i<=levels] of the
    iteration [i], together with the paths passed to [fopen], in order.
    [fuel] bounds the tests left; one for each [i] up to [levels] and
    one more are enough. *)
Fixpoint find_file_run (fuel : nat) (i levels : Z) (path : string)
  : find_outcome * list string :=
  match fuel with
  | O => (int_overflow, [])
  | S fuel' =>
      if i <=? levels
      then match fopen path with
           | Some f => (opened f, [path])
           | None =>
               if i =? INT_MAX
               then (int_overflow, [path])
               else let (r, calls) :=
                      find_file_run fuel' (i + 1) levels ("../" ++ path) in
                    (r, path :: calls)
           end
      else (null_pointer, [])
  end.

(** [find_file] on an [int] bound, with the calls of [fopen] it makes. *)
Definition find_file_int (path : string) (levels : Z)
  : find_outcome * list string :=
  find_file_run (S (Z.to_nat (levels + 1))) 0 levels path.

End FindFile.

Arguments opened {FILE} f.
Arguments null_pointer {FILE}.
Arguments int_overflow {FILE}.

(** [path] after [k] rounds of [path = "../" + path]. *)
Fixpoint parent_path (k : nat) (path : string) : string :=
  match k with
  | O => path
  | S k' => ("../" ++ parent_path k' path)%string
  end.

(** A second name table for streams, which differs from the one of
    [sample_rs_h] outside the range only. *)
Definition other_stream_names (v : Z) : string :=
  if (0 <=? v) && (v <? 4) then get_string_stream sample_rs_h v
  else "OUT_OF_RANGE"%string.

(** A file system holding the font of cpp-capture.cpp two directories
    up; a handle is the path it was opened with. *)
Definition sample_fopen (path : string) : option string :=
  if String.eqb path "../../examples/assets/Roboto-Bold.ttf"
  then Some path else None.

(* ================================================================== *)
(** * The linear algebra, for every scalar *)

Section LinearAlgebraFacts.
Context {F : Type} `{Scalar F}.

Lemma float3_index_in_range (v : float3 F) (i : Z) :
  0 <= i <= 2 ->
  float3_index v i = nth_error [x v; y v; z v] (Z.to_nat i).
Proof.
  intros Hi.
  assert (i = 0 \/ i = 1 \/ i = 2) as [-> | [-> | ->]] by lia; reflexivity.
Qed.

Lemma float3x3_member_in_range (m : float3x3 F) (j : Z) :
  0 <= j <= 2 ->
  float3x3_member m j = nth_error [col_x m; col_y m; col_z m] (Z.to_nat j).
Proof.
  intros Hj.
  assert (j = 0 \/ j = 1 \/ j = 2) as [-> | [-> | ->]] by lia; reflexivity.
Qed.

(** The orientation of a composed pose is the product of the
    orientations. *)
Lemma pose_mul_orientation (a b : pose F) :
  orientation (pose_mul a b) = float3x3_mul (orientation a) (orientation b).
Proof. reflexivity. Qed.

(** The position of a composed pose: [a.position] enters twice, once
    directly and once through [a * b.position]. *)
Lemma pose_mul_position (a b : pose F) :
  position (pose_mul a b)
  = float3_add (position a)
      (float3_add (float3x3_mul_float3 (orientation a) (position b))
                  (position a)).
Proof. reflexivity. Qed.

(** Transposing exchanges the two indices, whatever they are. *)
Lemma transpose_at (m : float3x3 F) (i j : Z) :
  float3x3_at (transpose m) i j = float3x3_at m j i.
Proof.
  unfold float3x3_at, float3x3_member, float3_index.
  destruct (j =? 0) eqn:J0; [ destruct (i =? 0), (i =? 1), (i =? 2); reflexivity | ].
  destruct (j =? 1) eqn:J1; [ destruct (i =? 0), (i =? 1), (i =? 2); reflexivity | ].
  destruct (j =? 2) eqn:J2; destruct (i =? 0), (i =? 1), (i =? 2); reflexivity.
Qed.

Lemma float3x3_at_in_range (m : float3x3 F) (i j : Z) :
  0 <= i <= 2 -> 0 <= j <= 2 -> exists e, float3x3_at m i j = Some e.
Proof.
  intros Hi Hj.
  assert (i = 0 \/ i = 1 \/ i = 2) as [-> | [-> | ->]] by lia;
    assert (j = 0 \/ j = 1 \/ j = 2) as [-> | [-> | ->]] by lia;
    eexists; reflexivity.
Qed.

(** C7.  The 3x3 matrix is stored column-major: for indices [i], [j] in
    0..2 the accessor [M(i,j)] is component [i] of the [j]-th stored
    column, and component [i] of [M*v] is
    [M(i,0)*v[0] + M(i,1)*v[1] + M(i,2)*v[2]], summed in this order;
    [M*v] itself is the combination of the stored columns weighted by
    the components of [v]. *)
Theorem float3x3_column_major (M : float3x3 F) (v : float3 F) (i j : Z) :
  0 <= i <= 2 -> 0 <= j <= 2 ->
  (exists c e,
      nth_error [col_x M; col_y M; col_z M] (Z.to_nat j) = Some c
      /\ float3_index c i = Some e
      /\ float3x3_at M i j = Some e)
  /\ (exists m0 m1 m2 v0 v1 v2,
         float3x3_at M i 0 = Some m0
         /\ float3x3_at M i 1 = Some m1
         /\ float3x3_at M i 2 = Some m2
         /\ float3_index v 0 = Some v0
         /\ float3_index v 1 = Some v1
         /\ float3_index v 2 = Some v2
         /\ float3_index (float3x3_mul_float3 M v) i
            = Some (fadd (fadd (fmul m0 v0) (fmul m1 v1)) (fmul m2 v2)))
  /\ float3x3_mul_float3 M v
     = float3_add
         (float3_add (float3_scale (col_x M) (x v))
                     (float3_scale (col_y M) (y v)))
         (float3_scale (col_z M) (z v)).
Proof.
  intros Hi Hj.
  split; [ | split; [ | reflexivity ] ].
  - assert (i = 0 \/ i = 1 \/ i = 2) as [-> | [-> | ->]] by lia;
      assert (j = 0 \/ j = 1 \/ j = 2) as [-> | [-> | ->]] by lia;
      do 2 eexists; repeat split; reflexivity.
  - assert (i = 0 \/ i = 1 \/ i = 2) as [-> | [-> | ->]] by lia;
      do 6 eexists; repeat split; reflexivity.
Qed.

(** C9.  Transposition exchanges the indices, [transpose(M)(i,j) = M(j,i)]
    for [i], [j] in 0..2, and is an involution. *)
Theorem transpose_swaps_indices_involutive (M : float3x3 F) (i j : Z) :
  0 <= i <= 2 -> 0 <= j <= 2 ->
  (exists e, float3x3_at (transpose M) i j = Some e
             /\ float3x3_at M j i = Some e)
  /\ transpose (transpose M) = M.
Proof.
  intros Hi Hj. split.
  - destruct (float3x3_at_in_range M j i Hj Hi) as [e He].
    exists e. rewrite transpose_at. auto.
  - destruct M as [[? ? ?] [? ? ?] [? ? ?]]. reflexivity.
Qed.

End LinearAlgebraFacts.

(** C7 on an integer matrix: row 1, column 2, and the vector (1,10,100). *)
Lemma float3x3_column_major_witness :
  (0 <= 1 <= 2 /\ 0 <= 2 <= 2)
  /\ (exists c e,
         nth_error [col_x sample_matrix; col_y sample_matrix; col_z sample_matrix]
                   (Z.to_nat 2) = Some c
         /\ float3_index c 1 = Some e
         /\ float3x3_at sample_matrix 1 2 = Some e)
  /\ (exists m0 m1 m2 v0 v1 v2,
         float3x3_at sample_matrix 1 0 = Some m0
         /\ float3x3_at sample_matrix 1 1 = Some m1
         /\ float3x3_at sample_matrix 1 2 = Some m2
         /\ float3_index (mk_float3 1 10 100) 0 = Some v0
         /\ float3_index (mk_float3 1 10 100) 1 = Some v1
         /\ float3_index (mk_float3 1 10 100) 2 = Some v2
         /\ float3_index (float3x3_mul_float3 sample_matrix (mk_float3 1 10 100)) 1
            = Some (fadd (fadd (fmul m0 v0) (fmul m1 v1)) (fmul m2 v2)))
  /\ float3x3_mul_float3 sample_matrix (mk_float3 1 10 100)
     = float3_add
         (float3_add (float3_scale (col_x sample_matrix) 1)
                     (float3_scale (col_y sample_matrix) 10))
         (float3_scale (col_z sample_matrix) 100).
Proof.
  split; [ lia | ].
  apply (float3x3_column_major sample_matrix (mk_float3 1 10 100) 1 2); lia.
Defined.

(** C9 on the same matrix. *)
Lemma transpose_swaps_indices_involutive_witness :
  (0 <= 0 <= 2 /\ 0 <= 2 <= 2)
  /\ (exists e, float3x3_at (transpose sample_matrix) 0 2 = Some e
                /\ float3x3_at sample_matrix 2 0 = Some e)
  /\ transpose (transpose sample_matrix) = sample_matrix.
Proof.
  split; [ lia | ].
  apply (transpose_swaps_indices_involutive sample_matrix 0 2); lia.
Defined.

Example sample_matrix_at_1_2 : float3x3_at sample_matrix 1 2 = Some 8.
Proof. reflexivity. Qed.

Example sample_matrix_transpose_at_2_1 :
  float3x3_at (transpose sample_matrix) 2 1 = Some 8.
Proof. reflexivity. Qed.

Example sample_matrix_times_vector :
  float3x3_mul_float3 sample_matrix (mk_float3 1 10 100) = mk_float3 741 852 963.
Proof. reflexivity. Qed.

(* ================================================================== *)
(** * Pose composition *)

(** ** In exact arithmetic *)

Section ExactPoses.

Local Ltac by_components :=
  repeat match goal with
         | p : pose Z |- _ => destruct p
         | m : float3x3 Z |- _ => destruct m
         | v : float3 Z |- _ => destruct v
         end;
  cbv [pose_mul pose_mul_float3 inverse float3x3_mul float3x3_mul_float3
       transpose float3_add float3_scale orientation position
       col_x col_y col_z x y z fadd fmul of_int Scalar_Z];
  repeat match goal with
         | |- mk_pose _ _ = mk_pose _ _ => f_equal
         | |- mk_float3x3 _ _ _ = mk_float3x3 _ _ _ => f_equal
         | |- mk_float3 _ _ _ = mk_float3 _ _ _ => f_equal
         end;
  ring.

Lemma float3x3_mul_assoc_Z (a b c : float3x3 Z) :
  float3x3_mul (float3x3_mul a b) c = float3x3_mul a (float3x3_mul b c).
Proof. by_components. Qed.

(** The position of [a * b] is [2 * a.position + a.orientation * b.position]. *)
Lemma pose_mul_position_Z (a b : pose Z) :
  position (pose_mul a b)
  = float3_add (float3_scale (position a) 2)
               (float3x3_mul_float3 (orientation a) (position b)).
Proof. by_components. Qed.

(** The two ways of bracketing a triple composition agree on the
    orientation and differ by [2 * a.position] on the position. *)
Lemma pose_mul_assoc_defect_Z (a b c : pose Z) :
  orientation (pose_mul (pose_mul a b) c)
  = orientation (pose_mul a (pose_mul b c))
  /\ position (pose_mul (pose_mul a b) c)
     = float3_add (position (pose_mul a (pose_mul b c)))
                  (float3_scale (position a) 2).
Proof. split; by_components. Qed.

(** Composing [inverse p] with [p] leaves the position of [inverse p],
    not zero. *)
Lemma inverse_pose_mul_position_Z (p : pose Z) :
  position (pose_mul (inverse p) p) = position (inverse p).
Proof. by_components. Qed.

Lemma inverse_pose_mul_orientation_Z (p : pose Z) :
  orientation (pose_mul (inverse p) p)
  = float3x3_mul (transpose (orientation p)) (orientation p).
Proof. reflexivity. Qed.

End ExactPoses.

(** ** On binary32 *)

(** C1.  Composition does not return [A.position + A.orientation * B.position]:
    for [A] one unit along x and [B] the identity pose, in binary32, the
    orientation is the product of the orientations, and the position is
    (2,0,0) where the stated formula gives (1,0,0). *)
Theorem pose_mul_position_counts_twice :
  let A : pose binary32 := unit_x_pose in
  let B : pose binary32 := pose_identity in
  orientation (pose_mul A B) = float3x3_mul (orientation A) (orientation B)
  /\ position (pose_mul A B) = mk_float3 (of_int 2) (of_int 0) (of_int 0)
  /\ float3_add (position A) (float3x3_mul_float3 (orientation A) (position B))
     = mk_float3 (of_int 1) (of_int 0) (of_int 0)
  /\ position (pose_mul A B)
     <> float3_add (position A)
                   (float3x3_mul_float3 (orientation A) (position B)).
Proof.
  cbv zeta. repeat split; try (vm_compute; reflexivity).
  vm_compute. discriminate.
Qed.

(** C2.  Composing [inverse P] with [P] is not the identity pose: for [P]
    one unit along x, whose orientation is orthonormal, in binary32, the
    orientation of the result is the identity and its position is
    (-1,0,0). *)
Theorem inverse_pose_mul_not_identity :
  let P : pose binary32 := unit_x_pose in
  float3x3_mul (transpose (orientation P)) (orientation P) = float3x3_identity
  /\ orientation (pose_mul (inverse P) P) = float3x3_identity
  /\ position (pose_mul (inverse P) P)
     = mk_float3 (of_int (-1)) (of_int 0) (of_int 0)
  /\ pose_mul (inverse P) P <> pose_identity.
Proof.
  cbv zeta. repeat split; try (vm_compute; reflexivity).
  vm_compute. discriminate.
Qed.

(** C3.  Composition is not associative: for [A] one unit along x and [B],
    [C] the identity pose, in binary32, [(A*B)*C] is at (4,0,0) and
    [A*(B*C)] at (2,0,0).  It is not commutative either. *)
Theorem pose_mul_not_associative :
  let A : pose binary32 := unit_x_pose in
  let B : pose binary32 := pose_identity in
  let C : pose binary32 := pose_identity in
  position (pose_mul (pose_mul A B) C)
  = mk_float3 (of_int 4) (of_int 0) (of_int 0)
  /\ position (pose_mul A (pose_mul B C))
     = mk_float3 (of_int 2) (of_int 0) (of_int 0)
  /\ pose_mul (pose_mul A B) C <> pose_mul A (pose_mul B C)
  /\ pose_mul A quarter_turn_pose <> pose_mul quarter_turn_pose A.
Proof.
  cbv zeta. repeat split; try (vm_compute; reflexivity);
    vm_compute; discriminate.
Qed.

(* ================================================================== *)
(** * Enumerated type support *)

Section EnumFacts.
Variable COUNT : Z.
Variable get_string : Z -> string.

Lemma is_valid_spec (value : Z) :
  is_valid COUNT value = true <-> 0 <= value < COUNT.
Proof.
  unfold is_valid. rewrite andb_true_iff, Z.geb_le, Z.ltb_lt. lia.
Qed.

Lemma is_valid_false_spec (value : Z) :
  is_valid COUNT value = false <-> (value < 0 \/ COUNT <= value).
Proof.
  unfold is_valid. rewrite andb_false_iff, Z.geb_leb, Z.leb_gt, Z.ltb_ge. lia.
Qed.

Lemma put_enum_valid (out : string) (value : Z) :
  0 <= value < COUNT ->
  put_enum COUNT get_string out value
  = mk_effect (out ++ get_string value) [value].
Proof.
  intros Hv. apply is_valid_spec in Hv. unfold put_enum. now rewrite Hv.
Qed.

Lemma put_enum_invalid (out : string) (value : Z) :
  (value < 0 \/ COUNT <= value) ->
  put_enum COUNT get_string out value = mk_effect (out ++ put_int value) [].
Proof.
  intros Hv. apply is_valid_false_spec in Hv. unfold put_enum. now rewrite Hv.
Qed.

Lemma put_enum_lookups_in_range (out : string) (value : Z) :
  Forall (fun k => 0 <= k < COUNT)
         (lookups (put_enum COUNT get_string out value)).
Proof.
  unfold put_enum. destruct (is_valid COUNT value) eqn:Hv; cbn.
  - constructor; [ now apply is_valid_spec | constructor ].
  - constructor.
Qed.

(** X15.  The output never depends on the name of a value outside the range. *)
Lemma put_enum_ext (names : Z -> string) (out : string) (value : Z) :
  (forall k, 0 <= k < COUNT -> names k = get_string k) ->
  put_enum COUNT names out value = put_enum COUNT get_string out value.
Proof.
  intros Hn. unfold put_enum. destruct (is_valid COUNT value) eqn:Hv.
  - apply is_valid_spec in Hv. now rewrite Hn.
  - reflexivity.
Qed.

End EnumFacts.

Lemma put_int_read_back (n : Z) : read_int (put_int n) = Some n.
Proof.
  unfold read_int, put_int.
  rewrite NilZero.isi.
  - cbn. now rewrite DecimalZ.of_to.
  - destruct n; cbn; try discriminate.
    intros [= E]. now apply DecimalPos.Unsigned.to_uint_nonnil in E.
  - destruct n; cbn; try discriminate.
    intros [= E]. now apply DecimalPos.Unsigned.to_uint_nonnil in E.
Qed.

Example put_stream_valid : put_stream sample_rs_h "s=" 2 = mk_effect "s=INFRARED" [2].
Proof. reflexivity. Qed.

Example put_stream_count : put_stream sample_rs_h "s=" 4 = mk_effect "s=4" [].
Proof. reflexivity. Qed.

Example put_stream_negative : put_stream sample_rs_h "s=" (-7) = mk_effect "s=-7" [].
Proof. reflexivity. Qed.

(** C8.  For each of the five enumerated types, [is_valid(v)] is true
    exactly when [v] is at least 0 and strictly below the COUNT sentinel
    of the type. *)
Theorem is_valid_iff_in_range (h : rs_h) (v : Z) :
  (is_valid_stream h v = true <-> 0 <= v < RS_STREAM_COUNT h)
  /\ (is_valid_format h v = true <-> 0 <= v < RS_FORMAT_COUNT h)
  /\ (is_valid_preset h v = true <-> 0 <= v < RS_PRESET_COUNT h)
  /\ (is_valid_distortion h v = true <-> 0 <= v < RS_DISTORTION_COUNT h)
  /\ (is_valid_option h v = true <-> 0 <= v < RS_OPTION_COUNT h).
Proof. repeat apply conj; apply is_valid_spec. Qed.

Lemma put_enum_insertion_total (COUNT : Z) (get_string : Z -> string) :
  insertion_total (is_valid COUNT) get_string (put_enum COUNT get_string).
Proof.
  intros out v. unfold put_enum.
  destruct (is_valid COUNT v) eqn:Hv; cbn; repeat split;
    auto using put_int_read_back.
Qed.

(** C10.  For each of the five enumerated types and every integer value
    [v], the insertion operator returns an output: the stream followed by
    the name of [v] when [is_valid v], and by the decimal numeral of [v]
    otherwise; [get_string] is called on [v] in the first case only, so
    never on a value outside the range. *)
Theorem put_enum_total (h : rs_h) :
  insertion_total (is_valid_stream h) (get_string_stream h) (put_stream h)
  /\ insertion_total (is_valid_format h) (get_string_format h) (put_format h)
  /\ insertion_total (is_valid_preset h) (get_string_preset h) (put_preset h)
  /\ insertion_total (is_valid_distortion h) (get_string_distortion h)
                     (put_distortion h)
  /\ insertion_total (is_valid_option h) (get_string_option h) (put_option h).
Proof. repeat apply conj; apply put_enum_insertion_total. Qed.

(* ================================================================== *)
(** * Mode selection *)

Section ModeSelectionFacts.
Variable RS_FORMAT_ANY : rs_format.
Variable unpack_overhead : uvc.frame_format -> nat.

Local Abbreviation pick := (pick_mode unpack_overhead).
Local Abbreviation eligible := (candidate RS_FORMAT_ANY).
Local Abbreviation select := (select_mode RS_FORMAT_ANY unpack_overhead).

(** ** The tie-break returns one of the modes it is given *)

Lemma pick_mode_from (l : list subdevice_mode) :
  forall best m, pick best l = Some m -> best = Some m \/ In m l.
Proof.
  induction l as [| c rest IH]; intros best m Hp; cbn [pick_mode] in Hp.
  - now left.
  - destruct best as [b |].
    + destruct (unpack_overhead (sd_format c) <? unpack_overhead (sd_format b))%nat.
      * apply IH in Hp as [[= ->] | Hin]; right; [ now left | now right ].
      * apply IH in Hp as [Hb | Hin]; [ now left | right; now right ].
    + apply IH in Hp as [[= ->] | Hin]; right; [ now left | now right ].
Qed.

Lemma pick_mode_some (l : list subdevice_mode) :
  forall b, exists m, pick (Some b) l = Some m.
Proof.
  induction l as [| c rest IH]; intros b; cbn [pick_mode].
  - now exists b.
  - destruct (unpack_overhead (sd_format c) <? unpack_overhead (sd_format b))%nat;
      apply IH.
Qed.

Lemma select_mode_candidate info requests subdevice_index m :
  select info requests subdevice_index = Some m ->
  In m (subdevice_modes info)
  /\ eligible info requests subdevice_index m = true.
Proof.
  unfold select_mode. intros Hp.
  apply pick_mode_from in Hp as [Hb | Hin]; [ discriminate | ].
  now apply filter_In in Hin.
Qed.

(** A mode is found exactly when some mode of the catalog is a
    candidate. *)
Lemma select_mode_none info requests subdevice_index :
  select info requests subdevice_index = None
  <-> forall m, In m (subdevice_modes info) ->
                eligible info requests subdevice_index m = false.
Proof.
  unfold select_mode. split.
  - intros Hp m Hin.
    destruct (eligible info requests subdevice_index m) eqn:Hc;
      [ | reflexivity ].
    assert (Hf : In m (filter (eligible info requests subdevice_index)
                              (subdevice_modes info)))
      by (apply filter_In; auto).
    destruct (filter _ _) as [| c rest]; [ destruct Hf | ].
    cbn [pick_mode] in Hp. destruct (pick_mode_some rest c) as [m' Hm'].
    congruence.
  - intros Hall.
    assert (Hnil : filter (eligible info requests subdevice_index)
                          (subdevice_modes info) = []).
    { induction (subdevice_modes info) as [| c rest IH]; [ reflexivity | ].
      cbn. rewrite (Hall c) by now left.
      apply IH. intros m Hin. apply Hall. now right. }
    now rewrite Hnil.
Qed.

(** ** Field comparisons *)

Lemma int_field_matches_spec (requested advertised : Z) :
  int_field_matches requested advertised = true
  <-> (requested <> 0 -> requested = advertised).
Proof.
  unfold int_field_matches. rewrite orb_true_iff, !Z.eqb_eq. lia.
Qed.

Lemma format_matches_spec (requested advertised : rs_format) :
  format_matches RS_FORMAT_ANY requested advertised = true
  <-> (requested <> RS_FORMAT_ANY -> requested = advertised).
Proof.
  unfold format_matches. rewrite orb_true_iff, !Z.eqb_eq.
  unfold rs_format in *. lia.
Qed.

Lemma request_matches_spec (req : stream_request) (sm : stream_mode) :
  request_matches RS_FORMAT_ANY req sm = true
  <-> (width req <> 0 -> width req = sm_width sm)
      /\ (height req <> 0 -> height req = sm_height sm)
      /\ (format req <> RS_FORMAT_ANY -> format req = sm_format sm)
      /\ (fps req <> 0 -> fps req = sm_fps sm).
Proof.
  unfold request_matches.
  rewrite !andb_true_iff, !int_field_matches_spec, format_matches_spec.
  tauto.
Qed.

Lemma enabled_request_spec requests s req :
  enabled_request requests s = Some req
  <-> array_get requests s = Some req /\ enabled req = true.
Proof.
  unfold enabled_request.
  destruct (array_get requests s) as [r |]; [ | split; [ discriminate | intros [? _]; discriminate ] ].
  destruct (enabled r) eqn:He; split.
  - intros [= ->]. auto.
  - now intros [[= ->] _].
  - discriminate.
  - intros [[= ->] He']. congruence.
Qed.

Lemma candidate_spec info requests subdevice_index m :
  candidate RS_FORMAT_ANY info requests subdevice_index m = true
  <-> subdevice m = subdevice_index
      /\ (forall sm req,
             In sm (streams m) ->
             array_get requests (stream sm) = Some req ->
             enabled req = true ->
             (width req <> 0 -> width req = sm_width sm)
             /\ (height req <> 0 -> height req = sm_height sm)
             /\ (format req <> RS_FORMAT_ANY -> format req = sm_format sm)
             /\ (fps req <> 0 -> fps req = sm_fps sm))
      /\ covers_requests info requests m = true
      /\ forallb (rule_holds requests m) (interstream_rules info) = true.
Proof.
  unfold candidate. rewrite !andb_true_iff, Z.eqb_eq.
  unfold satisfies_requests. rewrite forallb_forall.
  split.
  - intros [[[Hsd Hsat] Hcov] Hrules].
    split; [ assumption | ]. split; [ | split; assumption ].
    intros sm req Hin Hreq Hen. specialize (Hsat sm Hin).
    rewrite (proj2 (enabled_request_spec requests (stream sm) req)
                   (conj Hreq Hen)) in Hsat.
    now apply request_matches_spec in Hsat.
  - intros (Hsd & Hsat & Hcov & Hrules). repeat split; try assumption.
    intros sm Hin.
    destruct (enabled_request requests (stream sm)) as [req |] eqn:He;
      [ | reflexivity ].
    apply enabled_request_spec in He as [Hreq Hen].
    apply request_matches_spec. now apply Hsat.
Qed.

(** C4.  A mode returned by [select_mode] has the requested sub-device
    index, and every StreamMode it embeds whose stream is enabled in the
    requests agrees with that request on width and height (when
    nonzero), format (when not "any") and fps (when nonzero).  A request
    field that is zero or "any" matches every value: [select_mode] finds
    a mode as soon as a mode of the sub-device agrees with the explicit
    fields (and meets the coverage and the rules), and so whenever the
    enabled requests of its streams are all zero and "any", whatever the
    mode advertises. *)
Theorem select_mode_sound info requests subdevice_index :
  (forall m,
      select_mode RS_FORMAT_ANY unpack_overhead info requests subdevice_index
      = Some m ->
      subdevice m = subdevice_index
      /\ (forall sm req,
             In sm (streams m) ->
             array_get requests (stream sm) = Some req ->
             enabled req = true ->
             (width req <> 0 -> width req = sm_width sm)
             /\ (height req <> 0 -> height req = sm_height sm)
             /\ (format req <> RS_FORMAT_ANY -> format req = sm_format sm)
             /\ (fps req <> 0 -> fps req = sm_fps sm)))
  /\ (forall m,
         In m (subdevice_modes info) ->
         subdevice m = subdevice_index ->
         (forall sm req,
             In sm (streams m) ->
             array_get requests (stream sm) = Some req ->
             enabled req = true ->
             (width req <> 0 -> width req = sm_width sm)
             /\ (height req <> 0 -> height req = sm_height sm)
             /\ (format req <> RS_FORMAT_ANY -> format req = sm_format sm)
             /\ (fps req <> 0 -> fps req = sm_fps sm)) ->
         covers_requests info requests m = true ->
         forallb (rule_holds requests m) (interstream_rules info) = true ->
         exists m',
           select_mode RS_FORMAT_ANY unpack_overhead info requests
                       subdevice_index = Some m')
  /\ (forall m,
         In m (subdevice_modes info) ->
         subdevice m = subdevice_index ->
         (forall sm req,
             In sm (streams m) ->
             array_get requests (stream sm) = Some req ->
             enabled req = true ->
             width req = 0 /\ height req = 0
             /\ format req = RS_FORMAT_ANY /\ fps req = 0) ->
         covers_requests info requests m = true ->
         forallb (rule_holds requests m) (interstream_rules info) = true ->
         exists m',
           select_mode RS_FORMAT_ANY unpack_overhead info requests
                       subdevice_index = Some m').
Proof.
  assert (Hfound : forall m,
             In m (subdevice_modes info) ->
             candidate RS_FORMAT_ANY info requests subdevice_index m = true ->
             exists m',
               select_mode RS_FORMAT_ANY unpack_overhead info requests
                           subdevice_index = Some m').
  { intros m Hin Hc.
    destruct (select_mode RS_FORMAT_ANY unpack_overhead info requests
                          subdevice_index) as [m' |] eqn:Hsel.
    - now exists m'.
    - rewrite select_mode_none in Hsel. rewrite (Hsel m Hin) in Hc.
      discriminate. }
  split; [ | split ].
  - intros m Hsel. apply select_mode_candidate in Hsel as [_ Hc].
    apply candidate_spec in Hc. tauto.
  - intros m Hin Hsd Hsat Hcov Hrules.
    apply (Hfound m Hin). apply candidate_spec. auto.
  - intros m Hin Hsd Hfree Hcov Hrules.
    apply (Hfound m Hin). apply candidate_spec.
    split; [ assumption | ]. split; [ | split; assumption ].
    intros sm req Hsm Hreq Hen.
    destruct (Hfree sm req Hsm Hreq Hen) as (Hw & Hh & Hf & Hr).
    repeat split; intros Hne; contradiction.
Qed.

(** A rule whose two requests are explicit is decided by the requests
    alone. *)
Lemma rule_holds_explicit requests m r ra rb :
  array_get requests (rule_a r) = Some ra -> enabled ra = true ->
  array_get requests (rule_b r) = Some rb -> enabled rb = true ->
  request_field_get (field r) ra <> 0 ->
  request_field_get (field r) rb <> 0 ->
  rule_holds requests m r
  = (request_field_get (field r) ra + delta r =? request_field_get (field r) rb).
Proof.
  intros Ha Hea Hb Heb Hna Hnb. unfold rule_holds.
  rewrite (proj2 (enabled_request_spec requests (rule_a r) ra) (conj Ha Hea)).
  rewrite (proj2 (enabled_request_spec requests (rule_b r) rb) (conj Hb Heb)).
  unfold rule_value.
  apply Z.eqb_neq in Hna, Hnb. now rewrite Hna, Hnb.
Qed.

(** C5.  When both streams of a rule of the camera are enabled with
    explicit values of the rule's field and [a.field + delta] differs
    from [b.field], [select_mode] returns the "no compatible mode"
    outcome for every sub-device index, whatever the other fields are. *)
Theorem select_mode_rule_violation info requests subdevice_index r ra rb :
  In r (interstream_rules info) ->
  array_get requests (rule_a r) = Some ra -> enabled ra = true ->
  array_get requests (rule_b r) = Some rb -> enabled rb = true ->
  request_field_get (field r) ra <> 0 ->
  request_field_get (field r) rb <> 0 ->
  request_field_get (field r) ra + delta r <> request_field_get (field r) rb ->
  select info requests subdevice_index = None.
Proof.
  intros Hr Ha Hea Hb Heb Hna Hnb Hneq.
  apply select_mode_none. intros m _.
  unfold candidate.
  assert (Hrules : forallb (rule_holds requests m) (interstream_rules info) = false).
  { destruct (forallb _ _) eqn:Hf; [ | reflexivity ].
    rewrite forallb_forall in Hf. specialize (Hf r Hr).
    rewrite (rule_holds_explicit requests m r ra rb) in Hf by assumption.
    apply Z.eqb_eq in Hf. contradiction. }
  rewrite Hrules. apply andb_false_r.
Qed.

End ModeSelectionFacts.

(** ** On the sample camera *)

Example select_depth :
  select_mode 0 sample_overhead sample_camera sample_requests 0
  = Some sample_depth_mode.
Proof. reflexivity. Qed.

Example select_infrared_conflict :
  select_mode 0 sample_overhead sample_camera conflicting_requests 2 = None.
Proof. reflexivity. Qed.

(** Colour requested at a resolution the catalog does not have. *)
Example select_color_incompatible :
  select_mode 0 sample_overhead sample_camera
    [mk_stream_request true 640 480 0 30; mk_stream_request true 1920 1080 0 30;
     request_off; request_off] 1
  = None.
Proof. reflexivity. Qed.

(** C4 on the sample camera: depth requested with every field left
    open. *)
Lemma select_mode_sound_witness :
  (In sample_depth_mode (subdevice_modes sample_camera)
   /\ subdevice sample_depth_mode = 0
   /\ (forall sm req,
          In sm (streams sample_depth_mode) ->
          array_get dont_care_requests (stream sm) = Some req ->
          enabled req = true ->
          width req = 0 /\ height req = 0 /\ format req = 0 /\ fps req = 0)
   /\ covers_requests sample_camera dont_care_requests sample_depth_mode = true
   /\ forallb (rule_holds dont_care_requests sample_depth_mode)
              (interstream_rules sample_camera) = true)
  /\ (exists m',
         select_mode 0 sample_overhead sample_camera dont_care_requests 0
         = Some m')
  /\ select_mode 0 sample_overhead sample_camera dont_care_requests 0
     = Some sample_depth_mode
  /\ (subdevice sample_depth_mode = 0
      /\ (forall sm req,
             In sm (streams sample_depth_mode) ->
             array_get dont_care_requests (stream sm) = Some req ->
             enabled req = true ->
             (width req <> 0 -> width req = sm_width sm)
             /\ (height req <> 0 -> height req = sm_height sm)
             /\ (format req <> 0 -> format req = sm_format sm)
             /\ (fps req <> 0 -> fps req = sm_fps sm))).
Proof.
  destruct (select_mode_sound 0 sample_overhead sample_camera
                              dont_care_requests 0)
    as (Hsound & _ & Hopen).
  assert (Hfree : forall sm req,
             In sm (streams sample_depth_mode) ->
             array_get dont_care_requests (stream sm) = Some req ->
             enabled req = true ->
             width req = 0 /\ height req = 0 /\ format req = 0 /\ fps req = 0).
  { intros sm req [<- | []] Hreq _. cbn in Hreq. injection Hreq as <-.
    cbn. auto. }
  split; [ | split; [ | split ] ].
  - split; [ now left | ]. split; [ reflexivity | ].
    split; [ exact Hfree | ]. split; reflexivity.
  - apply (Hopen sample_depth_mode);
      [ now left | reflexivity | exact Hfree | reflexivity | reflexivity ].
  - reflexivity.
  - apply (Hsound sample_depth_mode). reflexivity.
Defined.

(** C5 on the sample camera: the infrared streams requested with widths
    640 and 320 against the rule "equal widths". *)
Lemma select_mode_rule_violation_witness :
  (In sample_rule (interstream_rules sample_camera)
   /\ array_get conflicting_requests (rule_a sample_rule)
      = Some (mk_stream_request true 640 0 0 0)
   /\ array_get conflicting_requests (rule_b sample_rule)
      = Some (mk_stream_request true 320 0 0 0)
   /\ 640 + delta sample_rule <> 320)
  /\ select_mode 0 sample_overhead sample_camera conflicting_requests 2 = None.
Proof.
  split.
  - repeat split; [ now left | cbn; lia ].
  - apply (select_mode_rule_violation 0 sample_overhead sample_camera
             conflicting_requests 2 sample_rule
             (mk_stream_request true 640 0 0 0)
             (mk_stream_request true 320 0 0 0));
      [ now left | reflexivity | reflexivity | reflexivity | reflexivity
      | cbn; lia | cbn; lia | cbn; lia ].
Defined.

(* ================================================================== *)
(** * The linear algebra on binary32 *)

Lemma SFmul_comm (prec emax : Z) (a b : spec_float) :
  SFmul prec emax a b = SFmul prec emax b a.
Proof.
  destruct a as [sa | sa | | sa ma ea], b as [sb | sb | | sb mb eb]; cbn;
    try reflexivity; rewrite ?(xorb_comm sa sb); try reflexivity.
  now rewrite (Pos.mul_comm ma mb), (Z.add_comm ea eb).
Qed.

Lemma SFadd_comm (prec emax : Z) (a b : spec_float) :
  SFadd prec emax a b = SFadd prec emax b a.
Proof.
  destruct a as [sa | sa | | sa ma ea], b as [sb | sb | | sb mb eb]; cbn;
    try reflexivity; try (destruct sa, sb; reflexivity).
  now rewrite (Z.min_comm ea eb), Z.add_comm.
Qed.

(** X1.  On binary32, where all NaNs are one value, the sum of two
    vectors does not depend on their order. *)
Theorem float3_add_comm_binary32 (a b : float3 binary32) :
  float3_add a b = float3_add b a.
Proof.
  unfold float3_add; cbn [fadd Scalar_binary32].
  now rewrite (SFadd_comm _ _ (x a)), (SFadd_comm _ _ (y a)), (SFadd_comm _ _ (z a)).
Qed.

Section TransposeOfProduct.
Context {F : Type} `{Scalar F}.
Hypothesis fmul_comm : forall a b : F, fmul a b = fmul b a.

Lemma transpose_float3x3_mul_comm (a b : float3x3 F) :
  transpose (float3x3_mul a b) = float3x3_mul (transpose b) (transpose a).
Proof.
  destruct a as [[a00 a10 a20] [a01 a11 a21] [a02 a12 a22]].
  destruct b as [[b00 b10 b20] [b01 b11 b21] [b02 b12 b22]].
  cbv [transpose float3x3_mul float3x3_mul_float3 float3_add float3_scale
       col_x col_y col_z x y z].
  repeat match goal with
         | |- context [fmul ?u ?v] =>
             lazymatch u with
             | a00 => fail | a10 => fail | a20 => fail
             | a01 => fail | a11 => fail | a21 => fail
             | a02 => fail | a12 => fail | a22 => fail
             | _ => rewrite (fmul_comm u v)
             end
         end.
  reflexivity.
Qed.

End TransposeOfProduct.

(** X2.  On binary32, where all NaNs are one value, transposing a product
    of matrices gives exactly the product of the transposes in the
    opposite order. *)
Theorem transpose_float3x3_mul_binary32 (a b : float3x3 binary32) :
  transpose (float3x3_mul a b) = float3x3_mul (transpose b) (transpose a).
Proof.
  apply transpose_float3x3_mul_comm.
  intros u v. apply SFmul_comm.
Qed.

(* ================================================================== *)
(** * The matrix product, entry by entry *)

Section MatrixProductEntries.
Context {F : Type} `{Scalar F}.

(** X3.  For every scalar type, binary32 included, and indices [i], [j] in
    0..2, entry [(i,j)] of the matrix product [a * b] is
    [a(i,0)*b(0,j) + a(i,1)*b(1,j) + a(i,2)*b(2,j)], row [i] of [a] by
    column [j] of [b], summed in this order. *)
Theorem float3x3_mul_entry (a b : float3x3 F) (i j : Z) :
  0 <= i <= 2 -> 0 <= j <= 2 ->
  exists a0 a1 a2 b0 b1 b2,
    float3x3_at a i 0 = Some a0
    /\ float3x3_at a i 1 = Some a1
    /\ float3x3_at a i 2 = Some a2
    /\ float3x3_at b 0 j = Some b0
    /\ float3x3_at b 1 j = Some b1
    /\ float3x3_at b 2 j = Some b2
    /\ float3x3_at (float3x3_mul a b) i j
       = Some (fadd (fadd (fmul a0 b0) (fmul a1 b1)) (fmul a2 b2)).
Proof.
  intros Hi Hj.
  assert (i = 0 \/ i = 1 \/ i = 2) as [-> | [-> | ->]] by lia;
    assert (j = 0 \/ j = 1 \/ j = 2) as [-> | [-> | ->]] by lia;
    do 6 eexists; repeat split; reflexivity.
Qed.

End MatrixProductEntries.

Example sample_matrix_product_entry :
  float3x3_at (float3x3_mul sample_matrix (transpose sample_matrix)) 0 1
  = Some (1 * 2 + 4 * 5 + 7 * 8).
Proof. reflexivity. Qed.

(* ================================================================== *)
(** * find_file *)

Lemma parent_path_shift (k : nat) (path : string) :
  parent_path k ("../" ++ path) = ("../" ++ parent_path k path)%string.
Proof.
  induction k as [| k IH]; [ reflexivity | ].
  cbn [parent_path]. now rewrite IH.
Qed.

Section FindFileFacts.
Variable FILE : Type.
Variable fopen : string -> option FILE.

(** The loop returns the first of its [n] candidates that opens. *)
Lemma find_file_loop_found (n : nat) :
  forall path f,
    find_file_loop FILE fopen n path = Some f
    <-> exists k, (k < n)%nat
                  /\ fopen (parent_path k path) = Some f
                  /\ forall j, (j < k)%nat -> fopen (parent_path j path) = None.
Proof.
  induction n as [| n IH]; intros path f; cbn [find_file_loop].
  - split; [ discriminate | intros (k & Hk & _); lia ].
  - destruct (fopen path) as [g |] eqn:Hopen.
    + split.
      * intros [= ->]. exists 0%nat. repeat split; [ lia | assumption | lia ].
      * intros (k & _ & Hf & Hfirst).
        destruct k as [| k]; [ cbn in Hf; congruence | ].
        specialize (Hfirst 0%nat ltac:(lia)). cbn in Hfirst. congruence.
    + rewrite IH. split.
      * intros (k & Hk & Hf & Hfirst).
        exists (S k). rewrite parent_path_shift in Hf.
        repeat split; [ lia | assumption | ].
        intros [| j] Hj; [ assumption | ].
        specialize (Hfirst j ltac:(lia)).
        now rewrite parent_path_shift in Hfirst.
      * intros (k & Hk & Hf & Hfirst).
        destruct k as [| k]; [ cbn in Hf; congruence | ].
        exists k. rewrite parent_path_shift.
        repeat split; [ lia | assumption | ].
        intros j Hj. rewrite parent_path_shift.
        apply (Hfirst (S j)). lia.
Qed.

Lemma find_file_loop_not_found (n : nat) :
  forall path,
    find_file_loop FILE fopen n path = None
    <-> forall k, (k < n)%nat -> fopen (parent_path k path) = None.
Proof.
  induction n as [| n IH]; intros path; cbn [find_file_loop].
  - split; [ intros _ k Hk; lia | reflexivity ].
  - destruct (fopen path) as [g |] eqn:Hopen.
    + split; [ discriminate | ].
      intros Hall. specialize (Hall 0%nat ltac:(lia)). cbn in Hall. congruence.
    + rewrite IH. split.
      * intros Hall [| k] Hk; [ assumption | ].
        cbn [parent_path]. rewrite <- parent_path_shift. apply Hall. lia.
      * intros Hall k Hk. rewrite parent_path_shift.
        apply (Hall (S k)). lia.
Qed.

(** X12.  [find_file] returns a handle exactly when one of [path], ["../" + path],
    ..., with at most [levels] prefixes, opens, and the handle is that of
    the candidate with the fewest prefixes. *)
Theorem find_file_found (path : string) (levels : Z) (f : FILE) :
  find_file FILE fopen path levels = Some f
  <-> exists k, Z.of_nat k <= levels
                /\ fopen (parent_path k path) = Some f
                /\ forall j, (j < k)%nat -> fopen (parent_path j path) = None.
Proof.
  unfold find_file. rewrite find_file_loop_found.
  split; intros (k & Hk & Hrest); exists k; (split; [ lia | exact Hrest ]).
Qed.

(** Without the bound of [int]: no handle exactly when none of the
    candidates with at most [levels] prefixes opens. *)
Lemma find_file_none_iff (path : string) (levels : Z) :
  find_file FILE fopen path levels = None
  <-> forall k, Z.of_nat k <= levels -> fopen (parent_path k path) = None.
Proof.
  unfold find_file. rewrite find_file_loop_not_found.
  split; intros Hall k Hk; apply Hall; lia.
Qed.

(** X14.  A file found within [levels] directories is the one found with any
    larger bound. *)
Theorem find_file_more_levels (path : string) (levels levels' : Z) (f : FILE) :
  find_file FILE fopen path levels = Some f -> levels <= levels' ->
  find_file FILE fopen path levels' = Some f.
Proof.
  rewrite !find_file_found. intros (k & Hk & Hrest) Hle.
  exists k. split; [ lia | exact Hrest ].
Qed.

(** ** With the [int] counter *)

Lemma INT_MAX_pos : 0 < INT_MAX.
Proof. reflexivity. Qed.

(** Below [INT_MAX] the counter never overflows, and the call ends as the
    loop over the candidates does. *)
Lemma find_file_run_below (levels : Z) :
  levels < INT_MAX ->
  forall fuel i path,
    0 <= i ->
    Z.max 0 (levels + 1 - i) < Z.of_nat fuel ->
    fst (find_file_run FILE fopen fuel i levels path)
    = match find_file_loop FILE fopen (Z.to_nat (levels + 1 - i)) path with
      | Some f => opened f
      | None => null_pointer
      end.
Proof.
  intros Hlev. induction fuel as [| fuel IH]; intros i path Hi Hfuel; [ lia | ].
  cbn [find_file_run]. destruct (i <=? levels) eqn:Hle.
  - apply Z.leb_le in Hle.
    replace (Z.to_nat (levels + 1 - i))
      with (S (Z.to_nat (levels + 1 - (i + 1)))) by lia.
    cbn [find_file_loop]. destruct (fopen path) as [f |]; [ reflexivity | ].
    destruct (i =? INT_MAX) eqn:Hmax; [ apply Z.eqb_eq in Hmax; lia | ].
    specialize (IH (i + 1) ("../" ++ path)%string ltac:(lia) ltac:(lia)).
    destruct (find_file_run FILE fopen fuel (i + 1) levels ("../" ++ path))
      as [r calls].
    exact IH.
  - apply Z.leb_gt in Hle.
    replace (Z.to_nat (levels + 1 - i)) with 0%nat by lia. reflexivity.
Qed.

(** When the call ends with the null pointer, every candidate was passed
    to [fopen] once, nearest first. *)
Lemma find_file_run_calls (levels : Z) :
  levels < INT_MAX ->
  forall fuel i path,
    0 <= i ->
    Z.max 0 (levels + 1 - i) < Z.of_nat fuel ->
    fst (find_file_run FILE fopen fuel i levels path) = null_pointer ->
    snd (find_file_run FILE fopen fuel i levels path)
    = map (fun k => parent_path k path) (seq 0 (Z.to_nat (levels + 1 - i))).
Proof.
  intros Hlev. induction fuel as [| fuel IH]; intros i path Hi Hfuel; [ lia | ].
  cbn [find_file_run]. destruct (i <=? levels) eqn:Hle.
  - apply Z.leb_le in Hle.
    replace (Z.to_nat (levels + 1 - i))
      with (S (Z.to_nat (levels + 1 - (i + 1)))) by lia.
    destruct (fopen path) as [f |]; [ discriminate | ].
    destruct (i =? INT_MAX) eqn:Hmax; [ discriminate | ].
    specialize (IH (i + 1) ("../" ++ path)%string ltac:(lia) ltac:(lia)).
    destruct (find_file_run FILE fopen fuel (i + 1) levels ("../" ++ path))
      as [r calls].
    cbn [fst snd] in *. intros Hr. rewrite (IH Hr).
    cbn [seq map parent_path]. f_equal.
    rewrite <- seq_shift, map_map.
    apply map_ext. intros k. apply parent_path_shift.
  - apply Z.leb_gt in Hle. intros _.
    replace (Z.to_nat (levels + 1 - i)) with 0%nat by lia. reflexivity.
Qed.

(** With the bound [INT_MAX] the test [i<=levels] never fails. *)
Lemma find_file_run_max (levels : Z) :
  INT_MAX <= levels ->
  forall fuel i path,
    i <= INT_MAX ->
    fst (find_file_run FILE fopen fuel i levels path) <> null_pointer.
Proof.
  intros Hlev.
  induction fuel as [| fuel IH]; intros i path Hi; cbn [find_file_run];
    [ discriminate | ].
  destruct (i <=? levels) eqn:Hle; [ | apply Z.leb_gt in Hle; lia ].
  destruct (fopen path) as [f |]; [ discriminate | ].
  destruct (i =? INT_MAX) eqn:Hmax; [ discriminate | ].
  apply Z.eqb_neq in Hmax.
  specialize (IH (i + 1) ("../" ++ path)%string ltac:(lia)).
  destruct (find_file_run FILE fopen fuel (i + 1) levels ("../" ++ path))
    as [r calls].
  exact IH.
Qed.

(** X13.  For an [int] bound, [find_file] returns the null pointer exactly
    when the bound is below [INT_MAX] and none of the candidates with at
    most [levels] prefixes opens; it has then passed each of them to
    [fopen] once, nearest first.  With a negative bound it returns the
    null pointer without calling [fopen].  Below [INT_MAX] the call ends
    as [find_file] over the unbounded counter does. *)
Theorem find_file_not_found (path : string) (levels : Z) :
  levels <= INT_MAX ->
  (fst (find_file_int FILE fopen path levels) = null_pointer
   <-> levels < INT_MAX
       /\ forall k, Z.of_nat k <= levels -> fopen (parent_path k path) = None)
  /\ (fst (find_file_int FILE fopen path levels) = null_pointer ->
      snd (find_file_int FILE fopen path levels)
      = map (fun k => parent_path k path) (seq 0 (Z.to_nat (levels + 1))))
  /\ (levels < 0 ->
      find_file_int FILE fopen path levels = (null_pointer, []))
  /\ (levels < INT_MAX ->
      fst (find_file_int FILE fopen path levels)
      = match find_file FILE fopen path levels with
        | Some f => opened f
        | None => null_pointer
        end).
Proof.
  intros Hint. pose proof INT_MAX_pos as Hpos.
  assert (Hbelow : levels < INT_MAX ->
                   fst (find_file_int FILE fopen path levels)
                   = match find_file FILE fopen path levels with
                     | Some f => opened f
                     | None => null_pointer
                     end).
  { intros Hlt. unfold find_file_int, find_file.
    rewrite (find_file_run_below levels Hlt _ 0 path) by lia.
    now rewrite Z.sub_0_r. }
  assert (Hnull : fst (find_file_int FILE fopen path levels) = null_pointer ->
                  levels < INT_MAX).
  { intros Hn. destruct (Z_lt_le_dec levels INT_MAX) as [Hlt | Hge];
      [ assumption | ].
    exfalso. revert Hn. unfold find_file_int.
    apply (find_file_run_max levels Hge). lia. }
  split; [ | split; [ | split ] ].
  - split.
    + intros Hn. split; [ now apply Hnull | ].
      rewrite (Hbelow (Hnull Hn)) in Hn.
      apply find_file_none_iff.
      destruct (find_file FILE fopen path levels); [ discriminate | reflexivity ].
    + intros [Hlt Hall]. rewrite (Hbelow Hlt).
      apply find_file_none_iff in Hall. now rewrite Hall.
  - intros Hn. unfold find_file_int in *.
    rewrite (find_file_run_calls levels (Hnull Hn) _ 0 path) by (lia || exact Hn).
    now rewrite Z.sub_0_r.
  - intros Hneg. unfold find_file_int. cbn [find_file_run].
    destruct (0 <=? levels) eqn:Hle; [ apply Z.leb_le in Hle; lia | reflexivity ].
  - exact Hbelow.
Qed.

End FindFileFacts.

Example find_font_3 :
  find_file string sample_fopen "examples/assets/Roboto-Bold.ttf" 3
  = Some "../../examples/assets/Roboto-Bold.ttf"%string.
Proof. reflexivity. Qed.

Example find_font_1 :
  find_file string sample_fopen "examples/assets/Roboto-Bold.ttf" 1 = None.
Proof. reflexivity. Qed.

Example find_font_negative :
  find_file string sample_fopen "../../examples/assets/Roboto-Bold.ttf" (-1)
  = None.
Proof. reflexivity. Qed.

(* ================================================================== *)
(** * Instances on the sample data *)

Example find_font_int_3 :
  find_file_int string sample_fopen "examples/assets/Roboto-Bold.ttf" 3
  = (opened "../../examples/assets/Roboto-Bold.ttf"%string,
     ["examples/assets/Roboto-Bold.ttf";
      "../examples/assets/Roboto-Bold.ttf";
      "../../examples/assets/Roboto-Bold.ttf"]%string).
Proof. reflexivity. Qed.

Example find_font_int_1 :
  find_file_int string sample_fopen "examples/assets/Roboto-Bold.ttf" 1
  = (null_pointer,
     ["examples/assets/Roboto-Bold.ttf";
      "../examples/assets/Roboto-Bold.ttf"]%string).
Proof. reflexivity. Qed.

Lemma float3x3_mul_entry_witness :
  (0 <= 0 <= 2 /\ 0 <= 1 <= 2)
  /\ exists a0 a1 a2 b0 b1 b2,
      float3x3_at sample_matrix 0 0 = Some a0
      /\ float3x3_at sample_matrix 0 1 = Some a1
      /\ float3x3_at sample_matrix 0 2 = Some a2
      /\ float3x3_at (transpose sample_matrix) 0 1 = Some b0
      /\ float3x3_at (transpose sample_matrix) 1 1 = Some b1
      /\ float3x3_at (transpose sample_matrix) 2 1 = Some b2
      /\ float3x3_at (float3x3_mul sample_matrix (transpose sample_matrix)) 0 1
         = Some (fadd (fadd (fmul a0 b0) (fmul a1 b1)) (fmul a2 b2)).
Proof.
  split; [ lia | ].
  apply (float3x3_mul_entry sample_matrix (transpose sample_matrix) 0 1); lia.
Defined.

Lemma find_file_not_found_witness :
  1 <= INT_MAX
  /\ (fst (find_file_int string sample_fopen
                         "examples/assets/Roboto-Bold.ttf" 1) = null_pointer
      <-> 1 < INT_MAX
          /\ forall k, Z.of_nat k <= 1 ->
                       sample_fopen
                         (parent_path k "examples/assets/Roboto-Bold.ttf")
                       = None)
  /\ (fst (find_file_int string sample_fopen
                         "examples/assets/Roboto-Bold.ttf" 1) = null_pointer ->
      snd (find_file_int string sample_fopen
                         "examples/assets/Roboto-Bold.ttf" 1)
      = map (fun k => parent_path k "examples/assets/Roboto-Bold.ttf")
            (seq 0 (Z.to_nat (1 + 1))))
  /\ (1 < 0 ->
      find_file_int string sample_fopen "examples/assets/Roboto-Bold.ttf" 1
      = (null_pointer, []))
  /\ (1 < INT_MAX ->
      fst (find_file_int string sample_fopen
                         "examples/assets/Roboto-Bold.ttf" 1)
      = match find_file string sample_fopen
                        "examples/assets/Roboto-Bold.ttf" 1 with
        | Some f => opened f
        | None => null_pointer
        end).
Proof.
  split; [ unfold INT_MAX; lia | ].
  apply (find_file_not_found string sample_fopen
           "examples/assets/Roboto-Bold.ttf" 1).
  unfold INT_MAX. lia.
Defined.

Lemma find_file_more_levels_witness :
  (find_file string sample_fopen "examples/assets/Roboto-Bold.ttf" 2
   = Some "../../examples/assets/Roboto-Bold.ttf"%string
   /\ 2 <= 3)
  /\ find_file string sample_fopen "examples/assets/Roboto-Bold.ttf" 3
     = Some "../../examples/assets/Roboto-Bold.ttf"%string.
Proof.
  split; [ split; [ reflexivity | lia ] | ].
  apply (find_file_more_levels string sample_fopen
           "examples/assets/Roboto-Bold.ttf" 2 3); [ reflexivity | lia ].
Defined.

Lemma put_enum_ext_witness :
  (forall k, 0 <= k < 4 -> other_stream_names k = get_string_stream sample_rs_h k)
  /\ put_enum 4 other_stream_names "s=" 7
     = put_enum 4 (get_string_stream sample_rs_h) "s=" 7.
Proof.
  assert (Hn : forall k, 0 <= k < 4 ->
                         other_stream_names k = get_string_stream sample_rs_h k).
  { intros k Hk. unfold other_stream_names.
    destruct (0 <=? k) eqn:H0; [ | lia ].
    destruct (k <? 4) eqn:H4; [ reflexivity | lia ]. }
  split; [ exact Hn | ].
  apply (put_enum_ext 4 (get_string_stream sample_rs_h) other_stream_names
                      "s=" 7 Hn).
Defined.
